(** * MacroPad Plus firmware: the input dispatch loop of [macropad_plus.c]

    A shallow embedding of [main] of [software/macropad_plus.c]: the five
    [__bit] "last state" variables are a record, every call into the support
    libraries ([PIN_read], [KBD_press], [NEO_writeColor], [WDT_reset], ...)
    is an entry of an execution log, and the statements of [main] are written
    in a small monad that threads the variables and appends to the log.

    The levels returned by [PIN_read] are the inputs of the program.  Each pin
    is read at most once before the loop and at most once per loop iteration,
    so one function [pin -> bool] per iteration (the level each read of that
    iteration returns) describes every possible input. *)

From Stdlib Require Import List Bool NArith Lia.
Import ListNotations.

(* ================================================================== *)
(** ** Pins, key codes and library calls *)
(* ================================================================== *)

(** The pins [main] reads (their port numbers live in [src/config.h]). *)
Inductive pin : Type :=
| PIN_KEY1 | PIN_KEY2 | PIN_KEY3 | PIN_ENC_A | PIN_ENC_B | PIN_ENC_SW.

(** The key codes [main]'s actions use (values in [src/usb_composite.h]). *)
Inductive key : Type :=
| KBD_KEY_F13 | KBD_KEY_F14 | KBD_KEY_F15
| KBD_KEY_F16 | KBD_KEY_F17 | KBD_KEY_F18.

(** One call into a support library, with its arguments; a [PIN_read]
    carries the raw level it returned. *)
Inductive call : Type :=
| EvNEO_init
| EvCLK_config
| EvDLY_ms (ms : N)
| EvNEO_clearAll
| EvPIN_read (p : pin) (raw : bool)
| EvNEO_sendByte (b : N)
| EvBOOT_now
| EvNEO_writeColor (pixel r g b : N)
| EvNEO_update
| EvHID_init
| EvWDT_start
| EvWDT_reset
| EvKBD_press (k : key)
| EvKBD_release (k : key)
| EvKBD_type (k : key).

(* ================================================================== *)
(** ** The variables of [main] *)
(* ================================================================== *)

(** [__bit key1last, key2last, key3last, encAlast, encSWlast]. *)
Record locals : Type := mkLocals {
  key1last  : bool;
  key2last  : bool;
  key3last  : bool;
  encAlast  : bool;
  encSWlast : bool
}.

Definition set_key1last (v : bool) (s : locals) : locals :=
  mkLocals v (key2last s) (key3last s) (encAlast s) (encSWlast s).
Definition set_key2last (v : bool) (s : locals) : locals :=
  mkLocals (key1last s) v (key3last s) (encAlast s) (encSWlast s).
Definition set_key3last (v : bool) (s : locals) : locals :=
  mkLocals (key1last s) (key2last s) v (encAlast s) (encSWlast s).
Definition set_encAlast (v : bool) (s : locals) : locals :=
  mkLocals (key1last s) (key2last s) (key3last s) v (encSWlast s).
Definition set_encSWlast (v : bool) (s : locals) : locals :=
  mkLocals (key1last s) (key2last s) (key3last s) (encAlast s) v.

(* ================================================================== *)
(** ** The execution monad *)
(* ================================================================== *)

(** A log entry is a library call together with the values the variables of
    [main] hold at the moment of the call. *)
Definition entry : Type := (locals * call)%type.
Definition trace : Type := list entry.

(** A computation either comes back with a value and the variables, or
    control has left the program for good. *)
Inductive outcome (A : Type) : Type :=
| Ret (a : A) (s : locals)
| Gone.
Arguments Ret {A} a s.
Arguments Gone {A}.

Definition M (A : Type) : Type := locals -> outcome A * trace.

Definition ret {A} (a : A) : M A := fun s => (Ret a s, []).

Definition bind {A B} (m : M A) (f : A -> M B) : M B :=
  fun s =>
    match m s with
    | (Ret a s1, t1) => let (o, t2) := f a s1 in (o, t1 ++ t2)
    | (Gone, t1) => (Gone, t1)
    end.

Declare Scope prog_scope.
Delimit Scope prog_scope with prog.
Notation "x <- m ;; k" := (bind m (fun x => k))
  (at level 61, m at next level, right associativity) : prog_scope.
Notation "m ;; k" := (bind m (fun _ => k))
  (at level 61, right associativity) : prog_scope.
Open Scope prog_scope.

(** A library call that returns nothing. *)
Definition emit (c : call) : M unit := fun s => (Ret tt s, [(s, c)]).

Definition get {A} (f : locals -> A) : M A := fun s => (Ret (f s) s, []).
Definition modify (f : locals -> locals) : M unit := fun s => (Ret tt (f s), []).

(** [if (c) { m }] without an [else]. *)
Definition when (c : bool) (m : M unit) : M unit := if c then m else ret tt.

(** Projections of a run. *)
Definition log_of {A} (r : outcome A * trace) : trace := snd r.
Definition calls (t : trace) : list call := map snd t.
Definition vars_of {A} (r : outcome A * trace) : option locals :=
  match fst r with Ret _ s => Some s | Gone => None end.

(* ================================================================== *)
(** ** The support libraries, as logged calls *)
(* ================================================================== *)

Definition NEO_init : M unit := emit EvNEO_init.
Definition CLK_config : M unit := emit EvCLK_config.
Definition DLY_ms (ms : N) : M unit := emit (EvDLY_ms ms).
Definition NEO_clearAll : M unit := emit EvNEO_clearAll.
Definition NEO_sendByte (b : N) : M unit := emit (EvNEO_sendByte b).
Definition NEO_writeColor (pixel r g b : N) : M unit :=
  emit (EvNEO_writeColor pixel r g b).
Definition NEO_update : M unit := emit EvNEO_update.
Definition HID_init : M unit := emit EvHID_init.
Definition WDT_start : M unit := emit EvWDT_start.
Definition WDT_reset : M unit := emit EvWDT_reset.
Definition KBD_press (k : key) : M unit := emit (EvKBD_press k).
Definition KBD_release (k : key) : M unit := emit (EvKBD_release k).
Definition KBD_type (k : key) : M unit := emit (EvKBD_type k).

(** [PIN_read(p)]: the raw level of the pin, taken from the levels [env] the
    pins show while this part of the program runs. *)
Definition PIN_read (env : pin -> bool) (p : pin) : M bool :=
  fun s => (Ret (env p) s, [(s, EvPIN_read p (env p))]).

(** Modelled from the spec: [BOOT_now] is defined in [src/system.h], which is
    not part of the sources at hand.  The spec's interface table says of
    [enter_bootloader()] that it "never returns under normal flow", and the
    boot sequencer calls it "irreversible ... never returns to normal flow":
    the call is logged and control does not come back. *)
Definition BOOT_now : M unit := fun s => (Gone, [(s, EvBOOT_now)]).

(* ================================================================== *)
(** ** Macro functions (lines 77-137) *)
(* ================================================================== *)

Definition KEY1_PRESSED : M unit := KBD_press KBD_KEY_F13.
Definition KEY1_RELEASED : M unit := KBD_release KBD_KEY_F13.
Definition KEY2_PRESSED : M unit := KBD_press KBD_KEY_F14.
Definition KEY2_RELEASED : M unit := KBD_release KBD_KEY_F14.
Definition KEY3_PRESSED : M unit := KBD_press KBD_KEY_F15.
Definition KEY3_RELEASED : M unit := KBD_release KBD_KEY_F15.
Definition ENC_CCW_ACTION : M unit := KBD_type KBD_KEY_F16.
Definition ENC_SW_PRESSED : M unit := KBD_press KBD_KEY_F17.
Definition ENC_SW_RELEASED : M unit := KBD_release KBD_KEY_F17.
Definition ENC_CW_ACTION : M unit := KBD_type KBD_KEY_F18.

(* ================================================================== *)
(** ** The loop body (lines 193-259) *)
(* ================================================================== *)

(** [a != b] on two bits. *)
Definition neqb (a b : bool) : bool := xorb a b.

Section LoopBody.

(** The raw levels the pins show during this iteration. *)
Variable env : pin -> bool.

(** Handle key 1 (lines 197-205). *)
Definition handle_key1 : M unit :=
  r <- PIN_read env PIN_KEY1 ;;
  l <- get key1last ;;
  when (neqb (negb r) l) (
    modify (fun s => set_key1last (negb (key1last s)) s) ;;
    l' <- get key1last ;;
    if l' then KEY1_PRESSED else KEY1_RELEASED).

(** Handle key 2 (lines 209-217). *)
Definition handle_key2 : M unit :=
  r <- PIN_read env PIN_KEY2 ;;
  l <- get key2last ;;
  when (neqb (negb r) l) (
    modify (fun s => set_key2last (negb (key2last s)) s) ;;
    l' <- get key2last ;;
    if l' then KEY2_PRESSED else KEY2_RELEASED).

(** Handle key 3 (lines 221-229). *)
Definition handle_key3 : M unit :=
  r <- PIN_read env PIN_KEY3 ;;
  l <- get key3last ;;
  when (neqb (negb r) l) (
    modify (fun s => set_key3last (negb (key3last s)) s) ;;
    l' <- get key3last ;;
    if l' then KEY3_PRESSED else KEY3_RELEASED).

(** Handle rotary encoder (lines 233-243). *)
Definition handle_encoder : M unit :=
  r <- PIN_read env PIN_ENC_A ;;
  l <- get encAlast ;;
  when (neqb (negb r) l) (
    modify (fun s => set_encAlast (negb (encAlast s)) s) ;;
    l' <- get encAlast ;;
    when l' (
      b <- PIN_read env PIN_ENC_B ;;
      if b then ENC_CW_ACTION else ENC_CCW_ACTION)).

(** Handle encoder switch (lines 247-255). *)
Definition handle_encoder_switch : M unit :=
  r <- PIN_read env PIN_ENC_SW ;;
  l <- get encSWlast ;;
  when (neqb (negb r) l) (
    modify (fun s => set_encSWlast (negb (encSWlast s)) s) ;;
    l' <- get encSWlast ;;
    if l' then ENC_SW_PRESSED else ENC_SW_RELEASED).

(** One pass through the body of [while(1)]. *)
Definition loop_body : M unit :=
  handle_key1 ;;
  handle_key2 ;;
  handle_key3 ;;
  handle_encoder ;;
  handle_encoder_switch ;;
  DLY_ms 2 ;;
  WDT_reset.

End LoopBody.

(** [while(1) { ... }], run for as many iterations as there are input
    samples: an execution of the endless loop is described by all its finite
    prefixes. *)
Fixpoint while_loop (envs : list (pin -> bool)) : M unit :=
  match envs with
  | [] => ret tt
  | env :: rest => loop_body env ;; while_loop rest
  end.

(* ================================================================== *)
(** ** [main] (lines 157-260) *)
(* ================================================================== *)

(** The declarations of lines 159-163. *)
Definition initial_locals : locals := mkLocals false false false false false.

(** [for(i = n; i; i--) NEO_sendByte(127);] for a counter that starts at [n]. *)
Fixpoint send_bytes (i : nat) : M unit :=
  match i with
  | O => ret tt
  | S i' => NEO_sendByte 127 ;; send_bytes i'
  end.

Section Main.

(** [NEO_COUNT] comes from [src/config.h]. *)
Variable NEO_COUNT : N.

(** The start value of the [uint8_t] counter [i = 3*NEO_COUNT]. *)
Definition i_start : N := (3 * NEO_COUNT) mod 256.

(** Lines 167-170. *)
Definition setup : M unit :=
  NEO_init ;;
  CLK_config ;;
  DLY_ms 10 ;;
  NEO_clearAll.

(** Lines 173-190: everything between the setup and the loop.  [env0]
    holds the pin levels at power-on. *)
Definition boot (env0 : pin -> bool) : M unit :=
  setup ;;
  sw <- PIN_read env0 PIN_ENC_SW ;;
  when (negb sw) (
    send_bytes (N.to_nat i_start) ;;
    BOOT_now) ;;
  NEO_writeColor 0 255 33 140 ;;
  NEO_writeColor 1 255 216 0 ;;
  NEO_writeColor 2 33 177 255 ;;
  NEO_update ;;
  HID_init ;;
  DLY_ms 500 ;;
  WDT_start.

(** [main], observed for the first [length envs] loop iterations. *)
Definition main (env0 : pin -> bool) (envs : list (pin -> bool)) : M unit :=
  boot env0 ;;
  while_loop envs.

Definition run_main (env0 : pin -> bool) (envs : list (pin -> bool))
  : outcome unit * trace :=
  main env0 envs initial_locals.

End Main.

(* ================================================================== *)
(** ** Vocabulary of the specification *)
(* ================================================================== *)

(** The logical level of a pin: every comparison of [main] that stores or
    tests a state negates the raw reading, [!PIN_read(p)], so a pin is
    active (pressed) when it reads low. *)
Definition level (env : pin -> bool) (p : pin) : bool := negb (env p).

(** The channels with a press/release pair of actions, and all channels
    that own a "last state" variable. *)
Inductive button : Type := Key1 | Key2 | Key3 | EncSW.
Inductive channel : Type := Button (b : button) | EncoderA.

Definition all_channels : list channel :=
  [Button Key1; Button Key2; Button Key3; EncoderA; Button EncSW].

Definition pin_of (c : channel) : pin :=
  match c with
  | Button Key1 => PIN_KEY1
  | Button Key2 => PIN_KEY2
  | Button Key3 => PIN_KEY3
  | EncoderA => PIN_ENC_A
  | Button EncSW => PIN_ENC_SW
  end.

Definition last (c : channel) : locals -> bool :=
  match c with
  | Button Key1 => key1last
  | Button Key2 => key2last
  | Button Key3 => key3last
  | EncoderA => encAlast
  | Button EncSW => encSWlast
  end.

Definition set_last (c : channel) : bool -> locals -> locals :=
  match c with
  | Button Key1 => set_key1last
  | Button Key2 => set_key2last
  | Button Key3 => set_key3last
  | EncoderA => set_encAlast
  | Button EncSW => set_encSWlast
  end.

(** The block of the loop body that serves a channel. *)
Definition handler (c : channel) : (pin -> bool) -> M unit :=
  match c with
  | Button Key1 => handle_key1
  | Button Key2 => handle_key2
  | Button Key3 => handle_key3
  | EncoderA => handle_encoder
  | Button EncSW => handle_encoder_switch
  end.

(** The macro functions, by the event they are bound to. *)
Inductive action : Type :=
| Pressed (b : button)
| Released (b : button)
| Clockwise
| CounterClockwise.

Definition invoke (a : action) : M unit :=
  match a with
  | Pressed Key1 => KEY1_PRESSED
  | Released Key1 => KEY1_RELEASED
  | Pressed Key2 => KEY2_PRESSED
  | Released Key2 => KEY2_RELEASED
  | Pressed Key3 => KEY3_PRESSED
  | Released Key3 => KEY3_RELEASED
  | Pressed EncSW => ENC_SW_PRESSED
  | Released EncSW => ENC_SW_RELEASED
  | Clockwise => ENC_CW_ACTION
  | CounterClockwise => ENC_CCW_ACTION
  end.

Definition channel_of_action (a : action) : channel :=
  match a with
  | Pressed b | Released b => Button b
  | Clockwise | CounterClockwise => EncoderA
  end.

(** The HID call each macro function makes, and back: the macro function a
    logged HID call belongs to. *)
Definition call_of_action (a : action) : call :=
  match a with
  | Pressed Key1 => EvKBD_press KBD_KEY_F13
  | Released Key1 => EvKBD_release KBD_KEY_F13
  | Pressed Key2 => EvKBD_press KBD_KEY_F14
  | Released Key2 => EvKBD_release KBD_KEY_F14
  | Pressed Key3 => EvKBD_press KBD_KEY_F15
  | Released Key3 => EvKBD_release KBD_KEY_F15
  | Pressed EncSW => EvKBD_press KBD_KEY_F17
  | Released EncSW => EvKBD_release KBD_KEY_F17
  | Clockwise => EvKBD_type KBD_KEY_F18
  | CounterClockwise => EvKBD_type KBD_KEY_F16
  end.

Definition action_of_call (c : call) : option action :=
  match c with
  | EvKBD_press KBD_KEY_F13 => Some (Pressed Key1)
  | EvKBD_release KBD_KEY_F13 => Some (Released Key1)
  | EvKBD_press KBD_KEY_F14 => Some (Pressed Key2)
  | EvKBD_release KBD_KEY_F14 => Some (Released Key2)
  | EvKBD_press KBD_KEY_F15 => Some (Pressed Key3)
  | EvKBD_release KBD_KEY_F15 => Some (Released Key3)
  | EvKBD_press KBD_KEY_F17 => Some (Pressed EncSW)
  | EvKBD_release KBD_KEY_F17 => Some (Released EncSW)
  | EvKBD_type KBD_KEY_F18 => Some Clockwise
  | EvKBD_type KBD_KEY_F16 => Some CounterClockwise
  | _ => None
  end.

(** The macro functions a log shows, in the order they ran. *)
Fixpoint dispatched (t : trace) : list action :=
  match t with
  | [] => []
  | (_, c) :: t' =>
      match action_of_call c with
      | Some a => a :: dispatched t'
      | None => dispatched t'
      end
  end.

Definition button_eqb (a b : button) : bool :=
  match a, b with
  | Key1, Key1 | Key2, Key2 | Key3, Key3 | EncSW, EncSW => true
  | _, _ => false
  end.

Definition channel_eqb (a b : channel) : bool :=
  match a, b with
  | Button x, Button y => button_eqb x y
  | EncoderA, EncoderA => true
  | _, _ => false
  end.

(** The actions of one channel among a list of actions. *)
Definition actions_of (c : channel) (l : list action) : list action :=
  filter (fun a => channel_eqb (channel_of_action a) c) l.

(** The outcome of the edge detector of the spec, for a sampled level and
    the stored one. *)
Inductive transition : Type := NoTransition | Rose | Fell.

Definition detect (lvl stored : bool) : transition :=
  if neqb lvl stored then (if lvl then Rose else Fell) else NoTransition.

(** Counting calls in a log. *)
Definition count (p : call -> bool) (l : list call) : nat :=
  length (filter p l).

Definition is_HID_init (c : call) : bool :=
  match c with EvHID_init => true | _ => false end.
Definition is_BOOT_now (c : call) : bool :=
  match c with EvBOOT_now => true | _ => false end.
Definition is_WDT_start (c : call) : bool :=
  match c with EvWDT_start => true | _ => false end.
Definition is_WDT_reset (c : call) : bool :=
  match c with EvWDT_reset => true | _ => false end.
Definition is_read_of (p : pin) (c : call) : bool :=
  match c, p with
  | EvPIN_read PIN_KEY1 _, PIN_KEY1
  | EvPIN_read PIN_KEY2 _, PIN_KEY2
  | EvPIN_read PIN_KEY3 _, PIN_KEY3
  | EvPIN_read PIN_ENC_A _, PIN_ENC_A
  | EvPIN_read PIN_ENC_B _, PIN_ENC_B
  | EvPIN_read PIN_ENC_SW _, PIN_ENC_SW => true
  | _, _ => false
  end.

(** What a channel's block does, read off the source once and for all: the
    variables it leaves and the calls it makes after sampling its pin. *)
Definition response (c : channel) (env : pin -> bool) (lvl : bool) : list call :=
  match c with
  | Button b => [call_of_action (if lvl then Pressed b else Released b)]
  | EncoderA =>
      if lvl
      then [EvPIN_read PIN_ENC_B (env PIN_ENC_B);
            call_of_action (if env PIN_ENC_B then Clockwise else CounterClockwise)]
      else []
  end.

(** The actions a channel fires in an iteration that starts with variables
    [s] and samples [env]. *)
Definition fires (c : channel) (env : pin -> bool) (s : locals) : list action :=
  match detect (level env (pin_of c)) (last c s), c with
  | NoTransition, _ => []
  | Rose, Button b => [Pressed b]
  | Fell, Button b => [Released b]
  | Rose, EncoderA => [if env PIN_ENC_B then Clockwise else CounterClockwise]
  | Fell, EncoderA => []
  end.

(** The variables after an iteration that samples [env]. *)
Definition sampled (env : pin -> bool) : locals :=
  mkLocals (level env PIN_KEY1) (level env PIN_KEY2) (level env PIN_KEY3)
           (level env PIN_ENC_A) (level env PIN_ENC_SW).

(** The variables after a channel's block has run. *)
Definition vars_after (c : channel) (env : pin -> bool) (s : locals) : locals :=
  set_last c (level env (pin_of c)) s.

(** The calls of a channel's block: the sample of its pin, then its response
    when the level differs from the stored one. *)
Definition segment (c : channel) (env : pin -> bool) (s : locals) : list call :=
  EvPIN_read (pin_of c) (env (pin_of c))
    :: (if neqb (level env (pin_of c)) (last c s)
        then response c env (level env (pin_of c))
        else []).

(** The calls the blocks of the loop body may make. *)
Definition is_dispatch_call (c : call) : bool :=
  match c with
  | EvPIN_read _ _ | EvKBD_press _ | EvKBD_release _ | EvKBD_type _ => true
  | _ => false
  end.

(** The log and the variables of the loop after the iterations [envs], as
    the concatenation of the logs of the single iterations. *)
Fixpoint loop_log (envs : list (pin -> bool)) (s : locals) : trace :=
  match envs with
  | [] => []
  | env :: rest => log_of (loop_body env s) ++ loop_log rest (sampled env)
  end.

Definition loop_vars (envs : list (pin -> bool)) (s : locals) : locals :=
  fold_left (fun _ env => sampled env) envs s.

(** Concrete pin levels: every pin low (every input active), every pin high
    (every input at rest), and keys 1, 3 and the encoder switch held down. *)
Definition all_low : pin -> bool := fun _ => false.
Definition all_high : pin -> bool := fun _ => true.
Definition keys_1_3_sw_low : pin -> bool :=
  fun p =>
    match p with
    | PIN_KEY1 | PIN_KEY3 | PIN_ENC_SW => false
    | _ => true
    end.

(** The calls of the setup and of the two ways on from the boot decision. *)
Definition setup_calls : list call :=
  [EvNEO_init; EvCLK_config; EvDLY_ms 10; EvNEO_clearAll].

Definition normal_calls : list call :=
  [EvNEO_writeColor 0 255 33 140; EvNEO_writeColor 1 255 216 0;
   EvNEO_writeColor 2 33 177 255; EvNEO_update;
   EvHID_init; EvDLY_ms 500; EvWDT_start].

(** The logical level sampled for a channel. *)
Definition sample (c : channel) (env : pin -> bool) : bool :=
  level env (pin_of c).

(** Side conditions of the counting lemmas: the predicate at hand holds of
    none of the calls a channel block makes, nor of the debounce delay. *)
Ltac no_such_call := first [reflexivity | intros []; now cbn].

(* ------------------------------------------------------------------ *)
(** *** Vocabulary for whole runs of the loop *)

(** The actions a button fires along a sequence of sampled levels, when its
    stored state starts as [stored]. *)
Fixpoint edges (b : button) (stored : bool) (levels : list bool) : list action :=
  match levels with
  | [] => []
  | l :: rest =>
      (if neqb l stored then [if l then Pressed b else Released b] else [])
        ++ edges b l rest
  end.

(** The rotation actions along a sequence of samples (logical level of
    channel A, raw level of channel B), when the stored state of A starts as
    [stored]. *)
Fixpoint turns (stored : bool) (samples : list (bool * bool)) : list action :=
  match samples with
  | [] => []
  | (a, rawB) :: rest =>
      (if negb stored && a
       then [if rawB then Clockwise else CounterClockwise]
       else [])
        ++ turns a rest
  end.

(** A list of actions of button [b] that goes pressed, released, pressed,
    ... ([next] tells whether a pressed action has to come first). *)
Fixpoint alternates (b : button) (next : bool) (l : list action) : bool :=
  match l with
  | [] => true
  | Pressed b' :: rest => next && button_eqb b b' && alternates b false rest
  | Released b' :: rest => negb next && button_eqb b b' && alternates b true rest
  | _ :: _ => false
  end.

Definition action_eqb (x y : action) : bool :=
  match x, y with
  | Pressed a, Pressed b | Released a, Released b => button_eqb a b
  | Clockwise, Clockwise | CounterClockwise, CounterClockwise => true
  | _, _ => false
  end.

(** How often an action occurs in a list of actions. *)
Definition occurrences (a : action) (l : list action) : nat :=
  length (filter (action_eqb a) l).

(** The calls an iteration of the loop may make. *)
Definition is_loop_call (c : call) : bool :=
  match c with
  | EvPIN_read _ _ | EvKBD_press _ | EvKBD_release _ | EvKBD_type _
  | EvDLY_ms 2 | EvWDT_reset => true
  | _ => false
  end.

Definition is_KBD_call (c : call) : bool :=
  match c with
  | EvKBD_press _ | EvKBD_release _ | EvKBD_type _ => true
  | _ => false
  end.



(* ================================================================== *)
(** ** Basic facts about runs *)
(* ================================================================== *)

Lemma bind_Ret {A B} (m : M A) (f : A -> M B) s a s1 t1 :
  m s = (Ret a s1, t1) ->
  bind m f s = (fst (f a s1), t1 ++ snd (f a s1)).
Proof.
  intros H. unfold bind. rewrite H. destruct (f a s1); reflexivity.
Qed.

Lemma bind_Gone {A B} (m : M A) (f : A -> M B) s t1 :
  m s = (Gone, t1) -> bind m f s = (Gone, t1).
Proof.
  intros H. unfold bind. rewrite H. reflexivity.
Qed.

Lemma dispatched_app t1 t2 :
  dispatched (t1 ++ t2) = dispatched t1 ++ dispatched t2.
Proof.
  induction t1 as [|[s c] t1 IH]; simpl; [reflexivity|].
  destruct (action_of_call c); simpl; now rewrite IH.
Qed.

Lemma calls_app t1 t2 : calls (t1 ++ t2) = calls t1 ++ calls t2.
Proof. apply map_app. Qed.

Lemma count_app p l1 l2 : count p (l1 ++ l2) = count p l1 + count p l2.
Proof. unfold count. now rewrite filter_app, length_app. Qed.

Lemma action_of_call_of_action a : action_of_call (call_of_action a) = Some a.
Proof. destruct a as [[]|[]| |]; reflexivity. Qed.

Lemma invoke_run a s : invoke a s = (Ret tt s, [(s, call_of_action a)]).
Proof. destruct a as [[]|[]| |]; reflexivity. Qed.

Lemma set_last_same c v s : last c (set_last c v s) = v.
Proof. destruct c as [[]|]; reflexivity. Qed.

Lemma set_last_other c c' v s : c <> c' -> last c' (set_last c v s) = last c' s.
Proof.
  intros H. destruct c as [[]|], c' as [[]|]; try reflexivity; now elim H.
Qed.

Lemma set_last_id c s : set_last c (last c s) s = s.
Proof. destruct s, c as [[]|]; reflexivity. Qed.

(** The run of one channel's block, in closed form. *)
Lemma handler_run c env s :
  handler c env s =
    let r := env (pin_of c) in
    if neqb (negb r) (last c s)
    then (Ret tt (set_last c (negb r) s),
          (s, EvPIN_read (pin_of c) r)
            :: map (pair (set_last c (negb r) s)) (response c env (negb r)))
    else (Ret tt s, [(s, EvPIN_read (pin_of c) r)]).
Proof.
  destruct s as [k1 k2 k3 ea es].
  destruct c as [[]|]; cbn -[neqb];
    unfold handle_key1, handle_key2, handle_key3, handle_encoder,
      handle_encoder_switch, bind, PIN_read, get, when, modify, ret; cbn.
  - destruct (env PIN_KEY1), k1; reflexivity.
  - destruct (env PIN_KEY2), k2; reflexivity.
  - destruct (env PIN_KEY3), k3; reflexivity.
  - destruct (env PIN_ENC_SW), es; reflexivity.
  - destruct (env PIN_ENC_A), ea; try reflexivity;
      cbn; destruct (env PIN_ENC_B); reflexivity.
Qed.

Lemma handler_vars c env s :
  fst (handler c env s) = Ret tt (vars_after c env s).
Proof.
  rewrite handler_run. unfold vars_after, level. cbn zeta.
  destruct (neqb (negb (env (pin_of c))) (last c s)) eqn:E; cbn; [reflexivity|].
  apply xorb_eq in E. rewrite E. now rewrite set_last_id.
Qed.

Lemma handler_split c env s :
  handler c env s = (Ret tt (vars_after c env s), log_of (handler c env s)).
Proof.
  rewrite <- handler_vars. unfold log_of. now destruct (handler c env s).
Qed.

Lemma handler_dispatched c env s :
  dispatched (log_of (handler c env s)) = fires c env s.
Proof.
  rewrite handler_run. unfold fires, detect, level, log_of. cbn zeta.
  destruct (neqb (negb (env (pin_of c))) (last c s)); [|reflexivity].
  destruct c as [b|]; cbn.
  - destruct b; cbn; destruct (env _); reflexivity.
  - destruct (env PIN_ENC_A); cbn; [reflexivity|].
    destruct (env PIN_ENC_B); reflexivity.
Qed.

Lemma fires_frame c c' env v s :
  c' <> c -> fires c env (set_last c' v s) = fires c env s.
Proof.
  intros H. unfold fires. now rewrite set_last_other.
Qed.

(** One iteration, block by block. *)
Lemma loop_body_run env s :
  let s1 := vars_after (Button Key1) env s in
  let s2 := vars_after (Button Key2) env s1 in
  let s3 := vars_after (Button Key3) env s2 in
  let s4 := vars_after EncoderA env s3 in
  let s5 := vars_after (Button EncSW) env s4 in
  loop_body env s =
    (Ret tt s5,
     log_of (handler (Button Key1) env s)
       ++ log_of (handler (Button Key2) env s1)
       ++ log_of (handler (Button Key3) env s2)
       ++ log_of (handler EncoderA env s3)
       ++ log_of (handler (Button EncSW) env s4)
       ++ [(s5, EvDLY_ms 2); (s5, EvWDT_reset)]).
Proof.
  intros s1 s2 s3 s4 s5. unfold loop_body.
  rewrite (bind_Ret _ _ _ _ _ _ (handler_split (Button Key1) env s)).
  rewrite (bind_Ret _ _ _ _ _ _ (handler_split (Button Key2) env s1)).
  rewrite (bind_Ret _ _ _ _ _ _ (handler_split (Button Key3) env s2)).
  rewrite (bind_Ret _ _ _ _ _ _ (handler_split EncoderA env s3)).
  rewrite (bind_Ret _ _ _ _ _ _ (handler_split (Button EncSW) env s4)).
  reflexivity.
Qed.

Lemma loop_body_vars env s : fst (loop_body env s) = Ret tt (sampled env).
Proof.
  pose proof (loop_body_run env s) as H. cbv zeta in H. rewrite H.
  destruct s. reflexivity.
Qed.

Lemma loop_body_split env s :
  loop_body env s = (Ret tt (sampled env), log_of (loop_body env s)).
Proof.
  rewrite <- (loop_body_vars env s). unfold log_of. now destruct (loop_body env s).
Qed.

(** The actions of one iteration, channel by channel. *)
Lemma loop_body_dispatched env s :
  dispatched (log_of (loop_body env s)) =
    fires (Button Key1) env s ++ fires (Button Key2) env s
      ++ fires (Button Key3) env s ++ fires EncoderA env s
      ++ fires (Button EncSW) env s.
Proof.
  pose proof (loop_body_run env s) as H. cbv zeta in H. rewrite H.
  unfold log_of at 1. cbn [snd].
  rewrite !dispatched_app, !handler_dispatched. unfold vars_after.
  rewrite !fires_frame by discriminate.
  cbn. now rewrite app_nil_r.
Qed.

Lemma handler_calls c env s :
  calls (log_of (handler c env s)) = segment c env s.
Proof.
  rewrite handler_run. unfold segment, level, log_of, calls. cbn zeta.
  destruct (neqb (negb (env (pin_of c))) (last c s)); cbn; [|reflexivity].
  f_equal. rewrite map_map. cbn. apply map_id.
Qed.

Lemma segment_frame c c' env v s :
  c' <> c -> segment c env (set_last c' v s) = segment c env s.
Proof.
  intros H. unfold segment. now rewrite set_last_other.
Qed.

(** The calls of one iteration, block by block. *)
Lemma loop_body_calls env s :
  calls (log_of (loop_body env s)) =
    (segment (Button Key1) env s ++ segment (Button Key2) env s
       ++ segment (Button Key3) env s ++ segment EncoderA env s
       ++ segment (Button EncSW) env s)
      ++ [EvDLY_ms 2; EvWDT_reset].
Proof.
  pose proof (loop_body_run env s) as H. cbv zeta in H. rewrite H.
  unfold log_of at 1. cbn [snd].
  rewrite !calls_app, !handler_calls. unfold vars_after.
  rewrite !segment_frame by discriminate.
  rewrite <- !app_assoc. reflexivity.
Qed.

Lemma segment_dispatch_only c env s :
  forallb is_dispatch_call (segment c env s) = true.
Proof.
  unfold segment, response.
  destruct (neqb _ _), c as [b|]; cbn; try reflexivity.
  - destruct (level env _), b; reflexivity.
  - destruct (level env PIN_ENC_A); [|reflexivity].
    destruct (env PIN_ENC_B); reflexivity.
Qed.

Lemma count_none p l :
  (forall c, is_dispatch_call c = true -> p c = false) ->
  forallb is_dispatch_call l = true -> count p l = 0.
Proof.
  intros Hp. unfold count.
  induction l as [|c l IH]; cbn; [reflexivity|].
  intros H. apply andb_prop in H as [Hc Hl].
  rewrite (Hp c Hc). auto.
Qed.

Lemma count_segment p c env s :
  (forall c, is_dispatch_call c = true -> p c = false) ->
  count p (segment c env s) = 0.
Proof.
  intros Hp. apply count_none; [exact Hp|apply segment_dispatch_only].
Qed.

Lemma count_segment_read c c' env s :
  count (is_read_of (pin_of c)) (segment c' env s) =
    if channel_eqb c c' then 1 else 0.
Proof.
  unfold segment, response.
  destruct (neqb _ _), c' as [b'|]; cbn.
  - destruct (level env _), c as [[]|], b'; reflexivity.
  - destruct (level env PIN_ENC_A); cbn.
    + destruct (env PIN_ENC_B), c as [[]|]; reflexivity.
    + destruct c as [[]|]; reflexivity.
  - destruct c as [[]|], b'; reflexivity.
  - destruct c as [[]|]; reflexivity.
Qed.

Lemma actions_of_app c l1 l2 :
  actions_of c (l1 ++ l2) = actions_of c l1 ++ actions_of c l2.
Proof. apply filter_app. Qed.

Lemma actions_of_fires c c' env s :
  actions_of c (fires c' env s) = if channel_eqb c c' then fires c' env s else [].
Proof.
  unfold fires.
  destruct (detect _ _), c' as [b'|]; cbn.
  - now destruct (channel_eqb _ _).
  - now destruct (channel_eqb _ _).
  - destruct c as [[]|], b'; reflexivity.
  - destruct (env PIN_ENC_B), c as [[]|]; reflexivity.
  - destruct c as [[]|], b'; reflexivity.
  - now destruct (channel_eqb _ _).
Qed.

(** The actions of one channel in one iteration. *)
Lemma loop_body_actions_of c env s :
  actions_of c (dispatched (log_of (loop_body env s))) = fires c env s.
Proof.
  rewrite loop_body_dispatched, !actions_of_app, !actions_of_fires.
  destruct c as [[]|]; cbn; now rewrite ?app_nil_r.
Qed.

Lemma while_loop_run envs s :
  while_loop envs s = (Ret tt (loop_vars envs s), loop_log envs s).
Proof.
  revert s. induction envs as [|env rest IH]; intros s; cbn; [reflexivity|].
  rewrite (bind_Ret _ _ _ _ _ _ (loop_body_split env s)).
  rewrite IH. reflexivity.
Qed.

Lemma send_bytes_run n s :
  send_bytes n s = (Ret tt s, repeat (s, EvNEO_sendByte 127) n).
Proof.
  induction n as [|n IH]; cbn; [reflexivity|].
  unfold bind, NEO_sendByte, emit. rewrite IH. reflexivity.
Qed.

Lemma calls_repeat s c n : calls (repeat (s, c) n) = repeat c n.
Proof.
  induction n as [|n IH]; cbn; [reflexivity|]. now rewrite <- IH.
Qed.

Lemma count_repeat p c n : p c = false -> count p (repeat c n) = 0.
Proof.
  intros H. unfold count. induction n as [|n IH]; cbn; [reflexivity|].
  now rewrite H.
Qed.

(** The boot sequence with the encoder switch held down. *)
Lemma boot_bootloader N env0 s :
  env0 PIN_ENC_SW = false ->
  boot N env0 s =
    (Gone,
     map (pair s) (setup_calls ++ [EvPIN_read PIN_ENC_SW false])
       ++ repeat (s, EvNEO_sendByte 127) (N.to_nat (i_start N))
       ++ [(s, EvBOOT_now)]).
Proof.
  intros H. unfold boot, setup, bind, PIN_read, when, NEO_init, CLK_config,
    DLY_ms, NEO_clearAll, emit, BOOT_now.
  rewrite H. cbn. rewrite send_bytes_run. reflexivity.
Qed.

(** The boot sequence with the encoder switch at rest. *)
Lemma boot_normal N env0 s :
  env0 PIN_ENC_SW = true ->
  boot N env0 s =
    (Ret tt s,
     map (pair s) (setup_calls ++ [EvPIN_read PIN_ENC_SW true] ++ normal_calls)).
Proof.
  intros H. unfold boot, setup, bind, PIN_read, when, emit.
  rewrite H. reflexivity.
Qed.

Lemma calls_pair s l : calls (map (pair s) l) = l.
Proof.
  unfold calls. rewrite map_map. apply map_id.
Qed.

Lemma main_bootloader N env0 envs :
  env0 PIN_ENC_SW = false ->
  run_main N env0 envs =
    (Gone,
     map (pair initial_locals) (setup_calls ++ [EvPIN_read PIN_ENC_SW false])
       ++ repeat (initial_locals, EvNEO_sendByte 127) (N.to_nat (i_start N))
       ++ [(initial_locals, EvBOOT_now)]).
Proof.
  intros H. unfold run_main, main.
  apply bind_Gone. now apply boot_bootloader.
Qed.

Lemma main_normal N env0 envs :
  env0 PIN_ENC_SW = true ->
  run_main N env0 envs =
    (Ret tt (loop_vars envs initial_locals),
     map (pair initial_locals)
         (setup_calls ++ [EvPIN_read PIN_ENC_SW true] ++ normal_calls)
       ++ loop_log envs initial_locals).
Proof.
  intros H. unfold run_main, main.
  rewrite (bind_Ret _ _ _ _ _ _ (boot_normal N env0 initial_locals H)).
  rewrite while_loop_run. reflexivity.
Qed.

Lemma loop_log_count p envs s :
  (forall c, is_dispatch_call c = true -> p c = false) ->
  p (EvDLY_ms 2) = false ->
  count p (calls (loop_log envs s)) =
    if p EvWDT_reset then length envs else 0.
Proof.
  intros Hp Hd. revert s.
  induction envs as [|env rest IH]; intros s; cbn [loop_log length].
  - now destruct (p EvWDT_reset).
  - rewrite calls_app, count_app, IH, loop_body_calls, !count_app.
    rewrite !count_segment by exact Hp.
    unfold count. cbn. rewrite Hd.
    destruct (p EvWDT_reset); reflexivity.
Qed.

Lemma neqb_neq a b : neqb a b = true <-> a <> b.
Proof. destruct a, b; cbn; split; congruence. Qed.

Lemma neqb_eq a b : neqb a b = false <-> a = b.
Proof. destruct a, b; cbn; split; congruence. Qed.

Lemma fires_button b env s :
  fires (Button b) env s =
    if neqb (sample (Button b) env) (last (Button b) s)
    then [if sample (Button b) env then Pressed b else Released b]
    else [].
Proof.
  unfold fires, detect, sample.
  destruct (neqb _ _); [|reflexivity]. now destruct (level env _).
Qed.

Lemma fires_encoder env s :
  fires EncoderA env s =
    match detect (level env PIN_ENC_A) (encAlast s) with
    | Rose => [if env PIN_ENC_B then Clockwise else CounterClockwise]
    | _ => []
    end.
Proof.
  unfold fires. cbn. now destruct (detect _ _).
Qed.

(* ================================================================== *)
(** ** The encoder direction decoder *)
(* ================================================================== *)

(** C1, as amended (the direction follows the raw level of channel B).
    By the transition channel A shows in an iteration: on a Rose the encoder
    block stores the new state of A, then reads channel B once and invokes
    exactly one rotation action, ENC_CW_ACTION when the raw reading of B is
    high and ENC_CCW_ACTION when it is low, and these are the encoder's only
    actions in the iteration; on a Fell it stores the new state of A and
    invokes nothing; without a transition it stores and invokes nothing. *)
Theorem encoder_rotation_follows_raw_B env s :
  match detect (level env PIN_ENC_A) (encAlast s) with
  | Rose =>
      handle_encoder env s =
        (Ret tt (set_encAlast true s),
         (s, EvPIN_read PIN_ENC_A (env PIN_ENC_A))
           :: (set_encAlast true s, EvPIN_read PIN_ENC_B (env PIN_ENC_B))
           :: log_of (invoke (if env PIN_ENC_B then Clockwise else CounterClockwise)
                             (set_encAlast true s)))
      /\ actions_of EncoderA (dispatched (log_of (loop_body env s))) =
           [if env PIN_ENC_B then Clockwise else CounterClockwise]
  | Fell =>
      handle_encoder env s =
        (Ret tt (set_encAlast false s),
         [(s, EvPIN_read PIN_ENC_A (env PIN_ENC_A))])
      /\ actions_of EncoderA (dispatched (log_of (loop_body env s))) = []
  | NoTransition =>
      handle_encoder env s =
        (Ret tt s, [(s, EvPIN_read PIN_ENC_A (env PIN_ENC_A))])
      /\ actions_of EncoderA (dispatched (log_of (loop_body env s))) = []
  end.
Proof.
  rewrite loop_body_actions_of, fires_encoder.
  change (handle_encoder env s) with (handler EncoderA env s).
  rewrite handler_run. unfold detect, level. cbn -[neqb invoke].
  destruct (env PIN_ENC_A), (encAlast s); cbn -[invoke];
    rewrite ?invoke_run; split; reflexivity.
Qed.

(** C1 as the claim words it fails on the code: with channel A rising and
    channel B at its active (low) level, the action dispatched is the
    counter-clockwise one, not the clockwise one. *)
Lemma encoder_active_B_turns_ccw :
  detect (level all_low PIN_ENC_A) (encAlast initial_locals) = Rose
  /\ level all_low PIN_ENC_B = true
  /\ dispatched (log_of (handle_encoder all_low initial_locals)) = [CounterClockwise]
  /\ dispatched (log_of (handle_encoder all_low initial_locals)) <> [Clockwise].
Proof.
  repeat split; try reflexivity. cbn. discriminate.
Qed.

(* ================================================================== *)
(** ** The edge detector and the dispatcher, channel by channel *)
(* ================================================================== *)

(** C2: when the level sampled for a button channel (keys 1-3, encoder
    switch) differs from its stored state, the block stores the new level and
    then invokes exactly one action, the pressed one when the new level is
    active and the released one when it is inactive; this is the channel's
    only action in the iteration. *)
Theorem button_flip_dispatches_once (b : button) env s :
  sample (Button b) env <> last (Button b) s ->
  handler (Button b) env s =
    (Ret tt (vars_after (Button b) env s),
     (s, EvPIN_read (pin_of (Button b)) (env (pin_of (Button b))))
       :: log_of (invoke (if sample (Button b) env then Pressed b else Released b)
                         (vars_after (Button b) env s)))
  /\ last (Button b) (vars_after (Button b) env s) = sample (Button b) env
  /\ dispatched (log_of (handler (Button b) env s)) =
       [if sample (Button b) env then Pressed b else Released b]
  /\ actions_of (Button b) (dispatched (log_of (loop_body env s))) =
       [if sample (Button b) env then Pressed b else Released b].
Proof.
  intros H. apply neqb_neq in H.
  rewrite loop_body_actions_of, handler_dispatched, fires_button, H.
  repeat split; [|apply set_last_same].
  rewrite handler_run, invoke_run. cbn zeta.
  unfold sample, level in H. rewrite H. reflexivity.
Qed.

Lemma button_flip_dispatches_once_witness :
  dispatched (log_of (handler (Button Key1) all_low initial_locals)) = [Pressed Key1]
  /\ dispatched (log_of (handler (Button EncSW) all_high (sampled all_low))) =
       [Released EncSW].
Proof.
  split.
  - apply (button_flip_dispatches_once Key1 all_low initial_locals). discriminate.
  - apply (button_flip_dispatches_once EncSW all_high (sampled all_low)). discriminate.
Defined.

Lemma handler_same_level c env s :
  sample c env = last c s ->
  handler c env s = (Ret tt s, [(s, EvPIN_read (pin_of c) (env (pin_of c)))]).
Proof.
  intros H. apply neqb_eq in H. unfold sample, level in H.
  rewrite handler_run. cbn zeta. now rewrite H.
Qed.

(** C7: when the level sampled for a channel equals its stored state, no
    transition is detected: the block only samples the pin, invokes no action
    and leaves the variables as they are, and the channel fires nothing in
    the iteration.  Serving a channel once more under the input it has just
    been served with does nothing either. *)
Theorem unchanged_level_is_ignored (c : channel) env s :
  sample c env = last c s ->
  detect (sample c env) (last c s) = NoTransition
  /\ handler c env s = (Ret tt s, [(s, EvPIN_read (pin_of c) (env (pin_of c)))])
  /\ dispatched (log_of (handler c env s)) = []
  /\ actions_of c (dispatched (log_of (loop_body env s))) = []
  /\ (forall s0,
        handler c env (vars_after c env s0) =
          (Ret tt (vars_after c env s0),
           [(vars_after c env s0, EvPIN_read (pin_of c) (env (pin_of c)))])).
Proof.
  intros H.
  rewrite loop_body_actions_of, handler_dispatched.
  unfold fires, detect. fold (sample c env).
  rewrite (proj2 (neqb_eq _ _) H).
  repeat split.
  - now apply handler_same_level.
  - intros s0. apply handler_same_level.
    unfold vars_after. now rewrite set_last_same.
Qed.

Lemma unchanged_level_is_ignored_witness :
  handler EncoderA all_high initial_locals =
    (Ret tt initial_locals, [(initial_locals, EvPIN_read PIN_ENC_A true)])
  /\ dispatched (log_of (handler (Button Key2) all_low (sampled all_low))) = [].
Proof.
  split.
  - apply (unchanged_level_is_ignored EncoderA all_high initial_locals). reflexivity.
  - apply (unchanged_level_is_ignored (Button Key2) all_low (sampled all_low)).
    reflexivity.
Defined.

(* ================================================================== *)
(** ** One iteration as a whole *)
(* ================================================================== *)

Lemma loop_vars_snoc envs env s : loop_vars (envs ++ [env]) s = sampled env.
Proof.
  unfold loop_vars. now rewrite fold_left_app.
Qed.

Lemma segment_head c env s :
  In (EvPIN_read (pin_of c) (env (pin_of c))) (segment c env s).
Proof. now left. Qed.

Lemma loop_body_reads c env s :
  count (is_read_of (pin_of c)) (calls (log_of (loop_body env s))) = 1.
Proof.
  rewrite loop_body_calls, !count_app, !count_segment_read.
  destruct c as [[]|]; reflexivity.
Qed.

(** C4: every iteration samples each channel's pin exactly once and ends
    with each channel's stored state equal to the logical level of that
    sample, whatever the variables held before and whether or not an action
    was dispatched; so the same holds at the end of the last of any number of
    iterations. *)
Theorem last_state_is_last_sample (c : channel) env s :
  vars_of (loop_body env s) = Some (sampled env)
  /\ last c (sampled env) = sample c env
  /\ count (is_read_of (pin_of c)) (calls (log_of (loop_body env s))) = 1
  /\ In (EvPIN_read (pin_of c) (env (pin_of c))) (calls (log_of (loop_body env s)))
  /\ (forall envs,
        vars_of (while_loop (envs ++ [env]) s) = Some (sampled env)).
Proof.
  split; [|split; [|split; [|split]]].
  - unfold vars_of. now rewrite loop_body_vars.
  - destruct c as [[]|]; reflexivity.
  - apply loop_body_reads.
  - rewrite loop_body_calls, !in_app_iff.
    destruct c as [[]|]; auto 10 using segment_head.
  - intros envs. unfold vars_of.
    now rewrite while_loop_run, loop_vars_snoc.
Qed.

Lemma handler_ext c env env' s :
  (forall p, env' p = env p) -> handler c env' s = handler c env s.
Proof.
  intros H. rewrite !handler_run. cbn zeta. unfold response.
  now rewrite !H.
Qed.

Lemma loop_body_ext env env' s :
  (forall p, env' p = env p) -> loop_body env' s = loop_body env s.
Proof.
  intros H.
  pose proof (loop_body_run env s) as R. cbv zeta in R. rewrite R.
  pose proof (loop_body_run env' s) as R'. cbv zeta in R'. rewrite R'.
  unfold vars_after, level. rewrite !(fun c s0 => handler_ext c env env' s0 H), !H. reflexivity.
Qed.

(** C5: the actions of an iteration are those of key 1, then key 2, then
    key 3, then the encoder rotation, then the encoder switch, each channel
    contributing what its own transition asks for; the calls of the iteration
    follow the same order and end with the delay and the watchdog refresh.
    The iteration is a function of the variables and of the levels read:
    inputs that agree on every pin give the same run.  With keys 1 and 3 and
    the encoder switch going down together the actions are those of key 1,
    key 3 and the switch, in this order. *)
Theorem dispatch_order_is_fixed env s :
  dispatched (log_of (loop_body env s)) =
    fires (Button Key1) env s ++ fires (Button Key2) env s
      ++ fires (Button Key3) env s ++ fires EncoderA env s
      ++ fires (Button EncSW) env s
  /\ calls (log_of (loop_body env s)) =
       (segment (Button Key1) env s ++ segment (Button Key2) env s
          ++ segment (Button Key3) env s ++ segment EncoderA env s
          ++ segment (Button EncSW) env s)
         ++ [EvDLY_ms 2; EvWDT_reset]
  /\ (forall env', (forall p, env' p = env p) -> loop_body env' s = loop_body env s)
  /\ dispatched (log_of (loop_body keys_1_3_sw_low initial_locals)) =
       [Pressed Key1; Pressed Key3; Pressed EncSW].
Proof.
  split; [apply loop_body_dispatched|].
  split; [apply loop_body_calls|].
  split; [intros env'; apply loop_body_ext|reflexivity].
Qed.

Lemma dispatch_order_is_fixed_witness :
  loop_body (fun p => negb (all_high p)) initial_locals =
    loop_body all_low initial_locals.
Proof.
  apply (dispatch_order_is_fixed all_low initial_locals).
  intros p. reflexivity.
Defined.

(* ================================================================== *)
(** ** Order of the store and the action; frame *)
(* ================================================================== *)

Lemma action_of_call_spec c a :
  action_of_call c = Some a -> c = call_of_action a.
Proof.
  destruct c as [| | | |p r| | | | | | | |k|k|k]; cbn; try discriminate;
    destruct k; cbn; intros H; inversion H; reflexivity.
Qed.

(** An entry of a block's log that is an action was logged after the
    block's store, belongs to the block's channel, and stems from a level
    that differs from the stored one. *)
Lemma handler_action_entry c env s e a :
  In e (log_of (handler c env s)) ->
  action_of_call (snd e) = Some a ->
  channel_of_action a = c
  /\ fst e = vars_after c env s
  /\ sample c env <> last c s.
Proof.
  rewrite handler_run. cbn zeta. fold (level env (pin_of c)). fold (sample c env).
  destruct (neqb (sample c env) (last c s)) eqn:E; unfold log_of; cbn [snd].
  - apply neqb_neq in E.
    intros [<-|H] Ha; [discriminate Ha|].
    apply in_map_iff in H as (x & <- & Hx). cbn in Ha |- *.
    split; [|split; [reflexivity|exact E]].
    destruct c as [b|]; cbn in Hx.
    + destruct Hx as [<-|[]]. rewrite action_of_call_of_action in Ha.
      inversion Ha. now destruct (sample (Button b) env).
    + unfold sample in Hx. cbn in Hx.
      destruct (level env PIN_ENC_A); [|destruct Hx].
      destruct Hx as [<-|[<-|[]]]; [discriminate Ha|].
      rewrite action_of_call_of_action in Ha.
      inversion Ha. now destruct (env PIN_ENC_B).
  - intros [<-|[]] Ha. discriminate Ha.
Qed.

Lemma bool_neq_negb (a b : bool) : a <> b -> a = negb b.
Proof. destruct a, b; cbn; congruence. Qed.

(** C9: whenever a block invokes an action, the variables at the moment of
    the call already hold the new level for the block's channel (the negation
    of what was stored before); this holds for every action logged in an
    iteration.  A block leaves the stored state of every other channel as it
    was. *)
Theorem state_is_stored_before_action :
  (forall c env s e a,
      In e (log_of (handler c env s)) ->
      action_of_call (snd e) = Some a ->
      last c (fst e) = sample c env /\ last c (fst e) = negb (last c s))
  /\ (forall env s e a,
      In e (log_of (loop_body env s)) ->
      action_of_call (snd e) = Some a ->
      last (channel_of_action a) (fst e) = sample (channel_of_action a) env
      /\ last (channel_of_action a) (fst e) = negb (last (channel_of_action a) s))
  /\ (forall c c' env s,
      c <> c' ->
      vars_of (handler c env s) = Some (vars_after c env s)
      /\ last c' (vars_after c env s) = last c' s).
Proof.
  assert (Hblock : forall c env s e a,
      In e (log_of (handler c env s)) ->
      action_of_call (snd e) = Some a ->
      channel_of_action a = c
      /\ last c (fst e) = sample c env
      /\ last c (fst e) = negb (last c s)).
  { intros c env s e a Hin Ha.
    destruct (handler_action_entry c env s e a Hin Ha) as (Hc & -> & Hne).
    unfold vars_after. rewrite set_last_same.
    split; [exact Hc|]. split; [reflexivity|]. now apply bool_neq_negb. }
  split; [|split].
  - intros c env s e a Hin Ha. now apply (Hblock c env s e a).
  - intros env s e a Hin Ha.
    pose proof (loop_body_run env s) as R. cbv zeta in R.
    rewrite R in Hin. unfold log_of at 1 in Hin. cbn [snd] in Hin.
    rewrite !in_app_iff in Hin.
    destruct Hin as [Hin|[Hin|[Hin|[Hin|[Hin|Hin]]]]];
      try (destruct (Hblock _ _ _ _ _ Hin Ha) as (-> & H1 & H2);
           split; [exact H1|]; rewrite H2; unfold vars_after;
           now rewrite ?set_last_other by discriminate).
    destruct Hin as [<-|[<-|[]]]; discriminate Ha.
  - intros c c' env s Hne. split.
    + unfold vars_of. now rewrite handler_vars.
    + unfold vars_after. now apply set_last_other.
Qed.

Lemma state_is_stored_before_action_witness :
  last (Button Key1) (set_key1last true initial_locals) = sample (Button Key1) all_low
  /\ last (Button Key2) (vars_after (Button Key1) all_low initial_locals) =
       last (Button Key2) initial_locals.
Proof.
  split.
  - apply (proj1 state_is_stored_before_action
             (Button Key1) all_low initial_locals
             (set_key1last true initial_locals, EvKBD_press KBD_KEY_F13)
             (Pressed Key1)).
    + right. left. reflexivity.
    + reflexivity.
  - apply (proj2 (proj2 state_is_stored_before_action)
             (Button Key1) (Button Key2) all_low initial_locals).
    discriminate.
Defined.

(* ================================================================== *)
(** ** The boot sequencer and the watchdog *)
(* ================================================================== *)

Lemma i_start_small N : (3 * N < 256)%N -> N.to_nat (i_start N) = 3 * N.to_nat N.
Proof.
  intros H. unfold i_start. rewrite N.mod_small by exact H. lia.
Qed.

Lemma count_zero_not_in p l c : count p l = 0 -> p c = true -> ~ In c l.
Proof.
  unfold count. intros H Hc Hin.
  assert (Hf : In c (filter p l)) by (apply filter_In; now split).
  destruct (filter p l); [destruct Hf|discriminate H].
Qed.

Lemma main_normal_calls N env0 envs :
  env0 PIN_ENC_SW = true ->
  calls (log_of (run_main N env0 envs)) =
    (setup_calls ++ [EvPIN_read PIN_ENC_SW true] ++ normal_calls)
      ++ calls (loop_log envs initial_locals).
Proof.
  intros H. rewrite (main_normal N env0 envs H).
  unfold log_of. cbn [snd]. now rewrite calls_app, calls_pair.
Qed.

Lemma main_bootloader_calls N env0 envs :
  env0 PIN_ENC_SW = false ->
  calls (log_of (run_main N env0 envs)) =
    (setup_calls ++ [EvPIN_read PIN_ENC_SW false])
      ++ repeat (EvNEO_sendByte 127) (N.to_nat (i_start N)) ++ [EvBOOT_now].
Proof.
  intros H. rewrite (main_bootloader N env0 envs H).
  unfold log_of. cbn [snd].
  now rewrite !calls_app, calls_pair, calls_repeat.
Qed.

(** C3: the boot sequence samples the encoder switch exactly once.  When the
    switch is active (reads low) the calls of the whole program are the
    setup, that sample, one byte for each colour of each pixel and BOOT_now,
    after which control never comes back: HID_init is never called.  When it
    is inactive the calls are the setup, that sample, the three colours for
    pixels 0, 1 and 2, NEO_update, HID_init, the 500 ms delay, WDT_start and
    then the loop: HID_init is called exactly once and BOOT_now never. *)
Theorem boot_sequence_order N env0 envs :
  (3 * N < 256)%N ->
  count (is_read_of PIN_ENC_SW) (calls (log_of (boot N env0 initial_locals))) = 1
  /\ (env0 PIN_ENC_SW = false ->
      calls (log_of (run_main N env0 envs)) =
        [EvNEO_init; EvCLK_config; EvDLY_ms 10; EvNEO_clearAll;
         EvPIN_read PIN_ENC_SW false]
          ++ repeat (EvNEO_sendByte 127) (3 * N.to_nat N)
          ++ [EvBOOT_now]
      /\ vars_of (run_main N env0 envs) = None
      /\ count is_HID_init (calls (log_of (run_main N env0 envs))) = 0
      /\ count is_BOOT_now (calls (log_of (run_main N env0 envs))) = 1)
  /\ (env0 PIN_ENC_SW = true ->
      calls (log_of (run_main N env0 envs)) =
        [EvNEO_init; EvCLK_config; EvDLY_ms 10; EvNEO_clearAll;
         EvPIN_read PIN_ENC_SW true;
         EvNEO_writeColor 0 255 33 140; EvNEO_writeColor 1 255 216 0;
         EvNEO_writeColor 2 33 177 255; EvNEO_update;
         EvHID_init; EvDLY_ms 500; EvWDT_start]
          ++ calls (loop_log envs initial_locals)
      /\ vars_of (run_main N env0 envs) = Some (loop_vars envs initial_locals)
      /\ count is_HID_init (calls (log_of (run_main N env0 envs))) = 1
      /\ count is_BOOT_now (calls (log_of (run_main N env0 envs))) = 0).
Proof.
  intros HN. split; [|split].
  - destruct (env0 PIN_ENC_SW) eqn:E.
    + rewrite (boot_normal N env0 initial_locals E).
      unfold log_of. cbn [snd]. now rewrite calls_pair.
    + rewrite (boot_bootloader N env0 initial_locals E).
      unfold log_of. cbn [snd].
      rewrite !calls_app, calls_pair, calls_repeat, !count_app.
      now rewrite count_repeat.
  - intros E. rewrite (main_bootloader_calls N env0 envs E).
    rewrite (i_start_small N HN). split; [reflexivity|]. split.
    + now rewrite (main_bootloader N env0 envs E).
    + rewrite !count_app, !count_repeat by reflexivity. split; reflexivity.
  - intros E. rewrite (main_normal_calls N env0 envs E). split; [reflexivity|]. split.
    + now rewrite (main_normal N env0 envs E).
    + rewrite !count_app, !loop_log_count by no_such_call.
      split; reflexivity.
Qed.

Lemma boot_sequence_order_witness :
  count is_HID_init (calls (log_of (run_main 3 all_low [all_low; all_high]))) = 0
  /\ count is_HID_init (calls (log_of (run_main 3 all_high [all_low; all_high]))) = 1.
Proof.
  split.
  - apply (boot_sequence_order 3 all_low [all_low; all_high]);
      [reflexivity|reflexivity].
  - apply (boot_sequence_order 3 all_high [all_low; all_high]);
      [reflexivity|reflexivity].
Defined.

(** C6: in normal mode the calls of the program are the boot calls up to
    NEO_update, then HID_init, the 500 ms delay and WDT_start, then the
    iterations: WDT_start is called exactly once, and not inside the loop.
    Every iteration's calls are those of the five channel blocks, which hold
    no WDT_reset, then the 2 ms delay, then WDT_reset: one refresh per
    iteration, as its last call, so after n iterations there have been
    exactly n refreshes. *)
Theorem watchdog_armed_once_refreshed_each_iteration N env0 envs :
  env0 PIN_ENC_SW = true ->
  calls (log_of (run_main N env0 envs)) =
    [EvNEO_init; EvCLK_config; EvDLY_ms 10; EvNEO_clearAll;
     EvPIN_read PIN_ENC_SW true;
     EvNEO_writeColor 0 255 33 140; EvNEO_writeColor 1 255 216 0;
     EvNEO_writeColor 2 33 177 255; EvNEO_update]
      ++ [EvHID_init; EvDLY_ms 500; EvWDT_start]
      ++ calls (loop_log envs initial_locals)
  /\ count is_WDT_start (calls (log_of (run_main N env0 envs))) = 1
  /\ count is_WDT_start (calls (loop_log envs initial_locals)) = 0
  /\ count is_WDT_reset (calls (log_of (run_main N env0 envs))) = length envs
  /\ (forall env s,
        calls (log_of (loop_body env s)) =
          (segment (Button Key1) env s ++ segment (Button Key2) env s
             ++ segment (Button Key3) env s ++ segment EncoderA env s
             ++ segment (Button EncSW) env s)
            ++ [EvDLY_ms 2; EvWDT_reset]
        /\ count is_WDT_reset
             (segment (Button Key1) env s ++ segment (Button Key2) env s
                ++ segment (Button Key3) env s ++ segment EncoderA env s
                ++ segment (Button EncSW) env s) = 0
        /\ count is_WDT_reset (calls (log_of (loop_body env s))) = 1).
Proof.
  intros E. rewrite (main_normal_calls N env0 envs E).
  split; [reflexivity|].
  rewrite !count_app, !loop_log_count by no_such_call.
  repeat split.
  - apply loop_body_calls.
  - rewrite !count_app, !count_segment by no_such_call. reflexivity.
  - rewrite loop_body_calls, !count_app, !count_segment by no_such_call.
    reflexivity.
Qed.

Lemma watchdog_armed_once_refreshed_each_iteration_witness :
  count is_WDT_reset (calls (log_of (run_main 3 all_high [all_low; all_high; all_low]))) = 3.
Proof.
  apply (watchdog_armed_once_refreshed_each_iteration 3 all_high
           [all_low; all_high; all_low]).
  reflexivity.
Defined.

(* ================================================================== *)
(** ** Polarity of the inputs and the first iteration *)
(* ================================================================== *)

Lemma dispatched_button b env s :
  dispatched (log_of (handler (Button b) env s)) =
    if neqb (negb (env (pin_of (Button b)))) (last (Button b) s)
    then [if env (pin_of (Button b)) then Released b else Pressed b]
    else [].
Proof.
  rewrite handler_dispatched, fires_button. unfold sample, level.
  destruct (neqb _ _); [|reflexivity]. now destruct (env _).
Qed.

(** C8: every channel is active-low.  Each block stores the negation of the
    raw reading of its pin.  A button block invokes the pressed action
    exactly when the pin reads low while the stored state is inactive, and
    the released action exactly when it reads high while the stored state is
    active; the encoder block invokes a rotation action exactly when channel
    A reads low while its stored state is inactive.  Hence a pin that read
    high in one iteration and reads low in the next has its pressed action
    dispatched in the latter.  The bootloader is entered exactly when the
    encoder switch reads low at the boot sample. *)
Theorem inputs_are_active_low :
  (forall c env s,
      vars_of (handler c env s) = Some (set_last c (negb (env (pin_of c))) s)
      /\ detect (sample c env) (last c s) =
           if neqb (negb (env (pin_of c))) (last c s)
           then (if env (pin_of c) then Fell else Rose)
           else NoTransition)
  /\ (forall b env s,
      dispatched (log_of (handler (Button b) env s)) = [Pressed b]
      <-> env (pin_of (Button b)) = false /\ last (Button b) s = false)
  /\ (forall b env s,
      dispatched (log_of (handler (Button b) env s)) = [Released b]
      <-> env (pin_of (Button b)) = true /\ last (Button b) s = true)
  /\ (forall env s,
      dispatched (log_of (handle_encoder env s)) <> []
      <-> env PIN_ENC_A = false /\ encAlast s = false)
  /\ (forall b env1 env2 s,
      env1 (pin_of (Button b)) = true ->
      env2 (pin_of (Button b)) = false ->
      vars_of (loop_body env1 s) = Some (sampled env1)
      /\ actions_of (Button b) (dispatched (log_of (loop_body env2 (sampled env1)))) =
           [Pressed b])
  /\ (forall N env0 envs,
      In EvBOOT_now (calls (log_of (run_main N env0 envs)))
      <-> env0 PIN_ENC_SW = false).
Proof.
  split; [|split; [|split; [|split; [|split]]]].
  - intros c env s. split.
    + unfold vars_of. now rewrite handler_vars.
    + unfold detect, sample, level.
      destruct (neqb _ _); [|reflexivity]. now destruct (env _).
  - intros b env s. rewrite dispatched_button.
    destruct (env _), (last _ s); cbn; split;
      first [ discriminate | intros [? ?]; discriminate
            | intros _; split; reflexivity | reflexivity ].
  - intros b env s. rewrite dispatched_button.
    destruct (env _), (last _ s); cbn; split;
      first [ discriminate | intros [? ?]; discriminate
            | intros _; split; reflexivity | reflexivity ].
  - intros env s.
    change (handle_encoder env s) with (handler EncoderA env s).
    rewrite handler_dispatched, fires_encoder. unfold detect, level.
    destruct (env PIN_ENC_A), (encAlast s); cbn; split;
      first [ intros H; now elim H | intros [? ?]; discriminate
            | intros _; split; reflexivity
            | intros _; destruct (env PIN_ENC_B); discriminate ].
  - intros b env1 env2 s H1 H2. split.
    + unfold vars_of. now rewrite loop_body_vars.
    + rewrite loop_body_actions_of, fires_button. unfold sample, level.
      rewrite H2. destruct b; cbn in H1 |- *; unfold level; now rewrite H1.
  - intros N env0 envs. destruct (env0 PIN_ENC_SW) eqn:E.
    + split; [|discriminate]. intros Hin. exfalso.
      revert Hin. apply (count_zero_not_in is_BOOT_now); [|reflexivity].
      rewrite (main_normal_calls N env0 envs E).
      now rewrite !count_app, !loop_log_count by no_such_call.
    + split; [reflexivity|]. intros _.
      rewrite (main_bootloader_calls N env0 envs E), !in_app_iff.
      right. right. now left.
Qed.

Lemma inputs_are_active_low_witness :
  dispatched (log_of (handler (Button Key3) all_low initial_locals)) = [Pressed Key3]
  /\ actions_of (Button Key2)
       (dispatched (log_of (loop_body all_low (sampled all_high)))) = [Pressed Key2]
  /\ In EvBOOT_now (calls (log_of (run_main 3 all_low []))).
Proof.
  split; [|split].
  - apply (proj1 (proj2 inputs_are_active_low) Key3 all_low initial_locals).
    split; reflexivity.
  - apply (proj1 (proj2 (proj2 (proj2 (proj2 inputs_are_active_low))))
             Key2 all_high all_low initial_locals); reflexivity.
  - apply (proj2 (proj2 (proj2 (proj2 (proj2 inputs_are_active_low))))
             3%N all_low []).
    reflexivity.
Defined.

(** C10: the five stored states are 0 when the program starts and the boot
    sequence does not touch them, so the first iteration starts from them.
    A channel whose input is active at the first sample therefore shows a
    Rose in the first iteration, and exactly one action is dispatched for it
    there: the pressed action of a button channel, one rotation action for
    the encoder. *)
Theorem held_input_rises_in_first_iteration N env0 env1 rest (c : channel) :
  env0 PIN_ENC_SW = true ->
  sample c env1 = true ->
  (forall c', last c' initial_locals = false)
  /\ vars_of (boot N env0 initial_locals) = Some initial_locals
  /\ log_of (run_main N env0 (env1 :: rest)) =
       log_of (boot N env0 initial_locals)
         ++ log_of (loop_body env1 initial_locals)
         ++ loop_log rest (sampled env1)
  /\ detect (sample c env1) (last c initial_locals) = Rose
  /\ actions_of c (dispatched (log_of (loop_body env1 initial_locals))) =
       [match c with
        | Button b => Pressed b
        | EncoderA => if env1 PIN_ENC_B then Clockwise else CounterClockwise
        end].
Proof.
  intros E H.
  split; [intros [[]|]; reflexivity|].
  split; [now rewrite (boot_normal N env0 initial_locals E)|].
  split; [now rewrite (main_normal N env0 (env1 :: rest) E),
            (boot_normal N env0 initial_locals E)|].
  assert (Hl : last c initial_locals = false) by (destruct c as [[]|]; reflexivity).
  split; [unfold detect; now rewrite H, Hl|].
  rewrite loop_body_actions_of. unfold fires, detect.
  fold (sample c env1). rewrite H, Hl. cbn. now destruct c.
Qed.

Lemma held_input_rises_in_first_iteration_witness :
  actions_of (Button Key1)
    (dispatched (log_of (loop_body all_low initial_locals))) = [Pressed Key1].
Proof.
  apply (held_input_rises_in_first_iteration 3 (fun _ => true) all_low []
           (Button Key1)); reflexivity.
Defined.

(* ================================================================== *)
(** ** Whole runs of the loop *)
(* ================================================================== *)

Lemma while_loop_log envs s : log_of (while_loop envs s) = loop_log envs s.
Proof. now rewrite while_loop_run. Qed.

Lemma while_loop_vars envs s : vars_of (while_loop envs s) = Some (loop_vars envs s).
Proof. now rewrite while_loop_run. Qed.

(** The actions of one channel along a run, iteration by iteration. *)
Lemma loop_log_actions_of c env rest s :
  actions_of c (dispatched (loop_log (env :: rest) s)) =
    fires c env s ++ actions_of c (dispatched (loop_log rest (sampled env))).
Proof.
  cbn [loop_log]. now rewrite dispatched_app, actions_of_app, loop_body_actions_of.
Qed.

Lemma last_sampled c env : last c (sampled env) = sample c env.
Proof. destruct c as [[]|]; reflexivity. Qed.

Lemma run_button_edges b envs s :
  actions_of (Button b) (dispatched (loop_log envs s)) =
    edges b (last (Button b) s) (map (sample (Button b)) envs).
Proof.
  revert s. induction envs as [|env rest IH]; intros s; [reflexivity|].
  rewrite loop_log_actions_of, IH, fires_button, last_sampled. reflexivity.
Qed.

Lemma run_encoder_turns envs s :
  actions_of EncoderA (dispatched (loop_log envs s)) =
    turns (encAlast s) (map (fun env => (level env PIN_ENC_A, env PIN_ENC_B)) envs).
Proof.
  revert s. induction envs as [|env rest IH]; intros s; [reflexivity|].
  rewrite loop_log_actions_of, IH, fires_encoder. cbn [map turns sampled encAlast].
  f_equal. unfold detect.
  destruct (level env PIN_ENC_A), (encAlast s); reflexivity.
Qed.

(** X1: along any run of the loop, from any variables, the actions of a
    button channel are exactly the edges of the sequence of levels sampled
    on its own pin, starting from its stored state: one pressed action for
    each change to active, one released action for each change to inactive,
    in order; the other pins play no part. *)
Theorem button_actions_follow_own_samples (b : button) envs s :
  actions_of (Button b) (dispatched (log_of (while_loop envs s))) =
    edges b (last (Button b) s) (map (sample (Button b)) envs).
Proof.
  rewrite while_loop_log. apply run_button_edges.
Qed.

Lemma button_eqb_refl b : button_eqb b b = true.
Proof. now destruct b. Qed.

Lemma edges_alternate b stored levels :
  alternates b (negb stored) (edges b stored levels) = true.
Proof.
  revert stored. induction levels as [|l rest IH]; intros stored; [reflexivity|].
  cbn [edges].
  destruct l, stored; cbn [neqb xorb app alternates negb andb];
    rewrite ?button_eqb_refl; cbn [andb];
    first [apply (IH true) | apply (IH false)].
Qed.

(** X2: along any run of the loop the actions of a button alternate:
    pressed, released, pressed, ...; no key is pressed twice without a
    release in between, nor released twice.  From the start of the program
    the first action of every button is its pressed action. *)
Theorem button_actions_alternate (b : button) envs s :
  alternates b (negb (last (Button b) s))
    (actions_of (Button b) (dispatched (log_of (while_loop envs s)))) = true
  /\ alternates b true
       (actions_of (Button b)
          (dispatched (log_of (while_loop envs initial_locals)))) = true.
Proof.
  rewrite !while_loop_log, !run_button_edges. split.
  - apply edges_alternate.
  - replace (last (Button b) initial_locals) with false by now destruct b.
    apply (edges_alternate b false).
Qed.

Lemma occurrences_app a l1 l2 :
  occurrences a (l1 ++ l2) = occurrences a l1 + occurrences a l2.
Proof. unfold occurrences. now rewrite filter_app, length_app. Qed.

Lemma occurrences_fires_other a c env s :
  channel_eqb (channel_of_action a) c = false -> occurrences a (fires c env s) = 0.
Proof.
  unfold fires.
  destruct (detect _ _); [reflexivity| |].
  - destruct c as [b|].
    + destruct a as [[]|[]| |], b; cbn; intros H; try reflexivity; discriminate H.
    + destruct (env PIN_ENC_B), a as [[]|[]| |]; cbn; intros H;
        try reflexivity; discriminate H.
  - destruct c as [b|]; [|reflexivity].
    destruct a as [[]|[]| |], b; cbn; intros H; try reflexivity; discriminate H.
Qed.

(** How often an action occurs in one iteration: as often as its own
    channel fires it. *)
Lemma occurrences_loop_body a env s :
  occurrences a (dispatched (log_of (loop_body env s))) =
    occurrences a (fires (channel_of_action a) env s).
Proof.
  rewrite loop_body_dispatched, !occurrences_app.
  destruct a as [[]|[]| |]; cbn [channel_of_action];
    repeat match goal with
           | |- context [occurrences ?a (fires ?c env s)] =>
               rewrite (occurrences_fires_other a c env s) by reflexivity
           end; lia.
Qed.

Lemma button_balance_step b env s :
  occurrences (Pressed b) (fires (Button b) env s)
    + (if last (Button b) s then 1 else 0) =
  occurrences (Released b) (fires (Button b) env s)
    + (if sample (Button b) env then 1 else 0).
Proof.
  rewrite fires_button.
  destruct (sample (Button b) env), (last (Button b) s), b; reflexivity.
Qed.

Lemma button_balance_run b envs s :
  occurrences (Pressed b) (dispatched (loop_log envs s))
    + (if last (Button b) s then 1 else 0) =
  occurrences (Released b) (dispatched (loop_log envs s))
    + (if last (Button b) (loop_vars envs s) then 1 else 0).
Proof.
  revert s. induction envs as [|env rest IH]; intros s; [reflexivity|].
  cbn [loop_log]. rewrite !dispatched_app, !occurrences_app, !occurrences_loop_body.
  cbn [channel_of_action].
  pose proof (button_balance_step b env s) as Hs.
  pose proof (IH (sampled env)) as Hr. rewrite last_sampled in Hr.
  change (loop_vars (env :: rest) s) with (loop_vars rest (sampled env)).
  lia.
Qed.

(** X3: a run of the loop keeps the books of every button balanced: the
    number of pressed actions exceeds the number of released actions by one
    when the button's stored state ends active and the two are equal when it
    ends inactive (counted from a start with the stored state inactive, as
    at power-up); from any variables, presses plus the stored state at the
    start equal releases plus the stored state at the end. *)
Theorem presses_and_releases_balance (b : button) envs s :
  exists s',
    vars_of (while_loop envs s) = Some s'
    /\ occurrences (Pressed b) (dispatched (log_of (while_loop envs s)))
         + (if last (Button b) s then 1 else 0) =
       occurrences (Released b) (dispatched (log_of (while_loop envs s)))
         + (if last (Button b) s' then 1 else 0).
Proof.
  exists (loop_vars envs s). rewrite while_loop_vars, while_loop_log.
  split; [reflexivity|apply button_balance_run].
Qed.




Lemma steady_vars env s :
  (forall c, sample c env = last c s) -> s = sampled env.
Proof.
  intros H. destruct s as [k1 k2 k3 ea es]. unfold sampled.
  pose proof (H (Button Key1)) as H1. pose proof (H (Button Key2)) as H2.
  pose proof (H (Button Key3)) as H3. pose proof (H EncoderA) as H4.
  pose proof (H (Button EncSW)) as H5.
  unfold sample in *. cbn in *. congruence.
Qed.

(** X5: an iteration whose samples all equal the stored states is quiet: it
    reads the five channel pins in order, waits 2 ms and refreshes the
    watchdog, makes no keyboard call, does not read channel B and leaves the
    variables as they are.  So inputs held steady produce no traffic,
    iteration after iteration. *)
Theorem steady_inputs_are_quiet env s :
  (forall c, sample c env = last c s) ->
  loop_body env s =
    (Ret tt s,
     map (pair s)
       [EvPIN_read PIN_KEY1 (env PIN_KEY1); EvPIN_read PIN_KEY2 (env PIN_KEY2);
        EvPIN_read PIN_KEY3 (env PIN_KEY3); EvPIN_read PIN_ENC_A (env PIN_ENC_A);
        EvPIN_read PIN_ENC_SW (env PIN_ENC_SW); EvDLY_ms 2; EvWDT_reset])
  /\ (forall n, dispatched (log_of (while_loop (repeat env n) s)) = []).
Proof.
  intros H. pose proof (steady_vars env s H) as Hs.
  assert (Hq : forall c, handler c env (sampled env) =
                 (Ret tt (sampled env),
                  [(sampled env, EvPIN_read (pin_of c) (env (pin_of c)))])).
  { intros c. apply handler_same_level. now rewrite last_sampled. }
  assert (Hv : forall c, vars_after c env (sampled env) = sampled env).
  { intros c. unfold vars_after. fold (sample c env).
    rewrite <- (last_sampled c env) at 1. apply set_last_id. }
  assert (Hb : loop_body env (sampled env) =
    (Ret tt (sampled env),
     map (pair (sampled env))
       [EvPIN_read PIN_KEY1 (env PIN_KEY1); EvPIN_read PIN_KEY2 (env PIN_KEY2);
        EvPIN_read PIN_KEY3 (env PIN_KEY3); EvPIN_read PIN_ENC_A (env PIN_ENC_A);
        EvPIN_read PIN_ENC_SW (env PIN_ENC_SW); EvDLY_ms 2; EvWDT_reset])).
  { pose proof (loop_body_run env (sampled env)) as R. cbv zeta in R.
    rewrite !Hv, !Hq in R. exact R. }
  subst s. split; [exact Hb|].
  intros n. rewrite while_loop_log.
  induction n as [|n IH]; [reflexivity|].
  cbn [repeat loop_log]. rewrite dispatched_app, IH, Hb. reflexivity.
Qed.

Lemma steady_inputs_are_quiet_witness :
  dispatched (log_of (while_loop (repeat all_low 4) (sampled all_low))) = [].
Proof.
  apply (steady_inputs_are_quiet all_low (sampled all_low)).
  intros [[]|]; reflexivity.
Defined.

(* ================================================================== *)
(** ** What the loop reads and what it leaves alone *)
(* ================================================================== *)

Lemma handler_button_ext b env env' s :
  env' (pin_of (Button b)) = env (pin_of (Button b)) ->
  handler (Button b) env' s = handler (Button b) env s.
Proof.
  intros H. rewrite !handler_run. cbn zeta. now rewrite H.
Qed.

Lemma handler_encoder_ext env env' s :
  env' PIN_ENC_A = env PIN_ENC_A ->
  (detect (level env PIN_ENC_A) (encAlast s) = Rose -> env' PIN_ENC_B = env PIN_ENC_B) ->
  handler EncoderA env' s = handler EncoderA env s.
Proof.
  intros HA HB. rewrite !handler_run. cbn zeta. cbn [pin_of last]. rewrite HA.
  revert HB. unfold detect, level, response.
  destruct (env PIN_ENC_A), (encAlast s); cbn; try reflexivity.
  intros HB. now rewrite HB.
Qed.

Lemma count_read_B_button b env s :
  count (is_read_of PIN_ENC_B) (segment (Button b) env s) = 0.
Proof.
  unfold segment, response.
  destruct b; cbn [pin_of last]; destruct (neqb _ _); try reflexivity;
    destruct (level env _); reflexivity.
Qed.

(** X6: channel B is read only as part of a rising edge of channel A: an
    iteration reads PIN_ENC_B once when channel A shows a Rose and not at all
    otherwise; and when A shows no Rose the level of B has no influence on
    the run whatsoever. *)
Theorem channel_B_is_read_only_on_rose env s :
  count (is_read_of PIN_ENC_B) (calls (log_of (loop_body env s))) =
    match detect (level env PIN_ENC_A) (encAlast s) with
    | Rose => 1
    | _ => 0
    end
  /\ (forall env',
        (forall p, p <> PIN_ENC_B -> env' p = env p) ->
        detect (level env PIN_ENC_A) (encAlast s) <> Rose ->
        loop_body env' s = loop_body env s).
Proof.
  split.
  - rewrite loop_body_calls, !count_app, !count_read_B_button.
    unfold segment, response, detect. cbn [pin_of last].
    destruct (level env PIN_ENC_A), (encAlast s), (env PIN_ENC_B); reflexivity.
  - intros env' H Hn.
    pose proof (loop_body_run env s) as R. cbv zeta in R. rewrite R.
    pose proof (loop_body_run env' s) as R'. cbv zeta in R'. rewrite R'.
    assert (Hb : forall b s0, handler (Button b) env' s0 = handler (Button b) env s0).
    { intros b s0. apply handler_button_ext. apply H. now destruct b. }
    assert (Hv : forall c s0, vars_after c env' s0 = vars_after c env s0).
    { intros c s0. unfold vars_after, level. rewrite H; [reflexivity|].
      now destruct c as [[]|]. }
    rewrite !Hv, !Hb.
    rewrite (handler_encoder_ext env env'); [reflexivity|now apply H|].
    unfold vars_after. cbn -[detect level].
    intros Hr. now elim Hn.
Qed.

Lemma channel_B_is_read_only_on_rose_witness :
  loop_body (fun p => match p with PIN_ENC_B => false | _ => true end) initial_locals =
    loop_body all_high initial_locals.
Proof.
  apply (channel_B_is_read_only_on_rose all_high initial_locals).
  - intros [] H; try reflexivity. now elim H.
  - discriminate.
Defined.

(** X7: the channels do not interfere: the actions a channel fires in an
    iteration depend only on its own stored state and on the level of its
    own pin (for the encoder also on the level of channel B), whatever the
    other pins and the other stored states are. *)
Theorem channels_do_not_interfere (c : channel) env env' s s' :
  env' (pin_of c) = env (pin_of c) ->
  (c = EncoderA -> env' PIN_ENC_B = env PIN_ENC_B) ->
  last c s' = last c s ->
  actions_of c (dispatched (log_of (loop_body env' s'))) =
    actions_of c (dispatched (log_of (loop_body env s))).
Proof.
  intros Hp HB Hl. rewrite !loop_body_actions_of.
  unfold fires, level. rewrite Hp, Hl.
  destruct c as [b|]; [reflexivity|].
  now rewrite (HB eq_refl).
Qed.

Lemma channels_do_not_interfere_witness :
  actions_of (Button Key2)
    (dispatched (log_of (loop_body keys_1_3_sw_low (sampled keys_1_3_sw_low)))) =
  actions_of (Button Key2)
    (dispatched (log_of (loop_body all_high initial_locals))).
Proof.
  apply (channels_do_not_interfere (Button Key2) all_high keys_1_3_sw_low
           initial_locals (sampled keys_1_3_sw_low)).
  - reflexivity.
  - discriminate.
  - reflexivity.
Defined.

Lemma dispatch_is_loop_call l :
  forallb is_dispatch_call l = true -> forallb is_loop_call l = true.
Proof.
  induction l as [|c l IH]; cbn; [reflexivity|].
  intros H. apply andb_prop in H as [Hc Hl].
  rewrite (IH Hl), andb_true_r. now destruct c.
Qed.

Lemma loop_body_loop_calls env s :
  forallb is_loop_call (calls (log_of (loop_body env s))) = true.
Proof.
  rewrite loop_body_calls, !forallb_app.
  rewrite !(dispatch_is_loop_call _ (segment_dispatch_only _ env s)).
  reflexivity.
Qed.

(** X8: the loop makes no other library calls than pin reads, keyboard
    press/release/type calls, the 2 ms delay and the watchdog refresh: after
    the boot sequence the NeoPixels are never written again, and HID_init,
    WDT_start and BOOT_now are never called from the loop. *)
Theorem loop_only_reads_types_waits_and_refreshes envs s :
  forallb is_loop_call (calls (log_of (while_loop envs s))) = true.
Proof.
  rewrite while_loop_log. revert s.
  induction envs as [|env rest IH]; intros s; [reflexivity|].
  cbn [loop_log]. rewrite calls_app, forallb_app, IH, loop_body_loop_calls.
  reflexivity.
Qed.

Lemma forallb_In {A} (p : A -> bool) l x :
  forallb p l = true -> In x l -> p x = true.
Proof.
  intros H Hin. rewrite forallb_forall in H. now apply H.
Qed.

(** X9: in normal mode nothing is sent and the watchdog is not refreshed
    before the device is ready: every keyboard call and every WDT_reset of
    the program comes after the call of HID_init and after the call of
    WDT_start. *)
Theorem no_traffic_before_init N env0 envs pre c post :
  env0 PIN_ENC_SW = true ->
  calls (log_of (run_main N env0 envs)) = pre ++ c :: post ->
  is_KBD_call c || is_WDT_reset c = true ->
  In EvHID_init pre /\ In EvWDT_start pre.
Proof.
  intros E Hsplit Hc.
  rewrite (main_normal_calls N env0 envs E) in Hsplit.
  apply app_eq_app in Hsplit as [l [[H1 H2]|[H1 H2]]].
  - destruct l as [|x l].
    + rewrite app_nil_r in H1. subst pre. cbn. auto 20.
    + cbn in H2. injection H2 as Hx _. subst x.
      assert (Hin : In c (setup_calls ++ [EvPIN_read PIN_ENC_SW true] ++ normal_calls)).
      { rewrite H1. apply in_app_iff. right. now left. }
      cbn in Hin.
      repeat (destruct Hin as [<-|Hin]; [discriminate Hc|]). destruct Hin.
  - subst pre. split; apply in_app_iff; left; cbn; auto 20.
Qed.

Lemma no_traffic_before_init_witness :
  In EvHID_init
    [EvNEO_init; EvCLK_config; EvDLY_ms 10; EvNEO_clearAll;
     EvPIN_read PIN_ENC_SW true;
     EvNEO_writeColor 0 255 33 140; EvNEO_writeColor 1 255 216 0;
     EvNEO_writeColor 2 33 177 255; EvNEO_update;
     EvHID_init; EvDLY_ms 500; EvWDT_start; EvPIN_read PIN_KEY1 false]
  /\ In EvWDT_start
    [EvNEO_init; EvCLK_config; EvDLY_ms 10; EvNEO_clearAll;
     EvPIN_read PIN_ENC_SW true;
     EvNEO_writeColor 0 255 33 140; EvNEO_writeColor 1 255 216 0;
     EvNEO_writeColor 2 33 177 255; EvNEO_update;
     EvHID_init; EvDLY_ms 500; EvWDT_start; EvPIN_read PIN_KEY1 false].
Proof.
  apply (no_traffic_before_init 3
           (fun p => match p with PIN_KEY1 => false | _ => true end)
           [fun p => match p with PIN_KEY1 => false | _ => true end]
           _ (EvKBD_press KBD_KEY_F13)
           [EvPIN_read PIN_KEY2 true; EvPIN_read PIN_KEY3 true;
            EvPIN_read PIN_ENC_A true; EvPIN_read PIN_ENC_SW true;
            EvDLY_ms 2; EvWDT_reset]).
  - reflexivity.
  - reflexivity.
  - reflexivity.
Defined.

(* ================================================================== *)
(** ** The key bindings *)
(* ================================================================== *)



(* ================================================================== *)
(** ** The encoder and held keys along a run; the bootloader signal *)
(* ================================================================== *)

Lemma turns_rate stored samples :
  2 * length (turns stored samples)
    <= length samples + (if stored then 0 else 1).
Proof.
  revert stored. induction samples as [|[a rawB] rest IH]; intros stored.
  - destruct stored; cbn; lia.
  - cbn [turns]. rewrite length_app. cbn [length].
    pose proof (IH a) as H.
    destruct stored, a; cbn [negb andb length] in *; lia.
Qed.

(** X11: along any run of the loop the rotation actions are exactly those
    of the rising edges of channel A, each with the direction given by the
    raw level of channel B in the same iteration; a second tick needs a
    falling edge of A first, so n iterations dispatch at most (n+1)/2
    rotation actions. *)
Theorem rotations_follow_rising_edges envs s :
  actions_of EncoderA (dispatched (log_of (while_loop envs s))) =
    turns (encAlast s) (map (fun env => (level env PIN_ENC_A, env PIN_ENC_B)) envs)
  /\ 2 * length (actions_of EncoderA (dispatched (log_of (while_loop envs s))))
       <= length envs + 1.
Proof.
  rewrite while_loop_log, run_encoder_turns. split; [reflexivity|].
  pose proof (turns_rate (encAlast s)
                (map (fun env => (level env PIN_ENC_A, env PIN_ENC_B)) envs)) as H.
  rewrite length_map in H. destruct (encAlast s); lia.
Qed.

Lemma edges_held b levels :
  Forall (fun l => l = true) levels -> edges b true levels = [].
Proof.
  induction 1 as [|l rest Hl _ IH]; [reflexivity|].
  subst l. cbn. exact IH.
Qed.

(** X12: there is no auto-repeat: a button whose stored state is inactive
    and whose pin is sampled active in every iteration of a run (the key is
    held down) has its pressed action dispatched in the first iteration and
    no action after that, however long the run. *)
Theorem held_key_is_pressed_once (b : button) env envs s :
  last (Button b) s = false ->
  sample (Button b) env = true ->
  Forall (fun e => sample (Button b) e = true) envs ->
  actions_of (Button b) (dispatched (log_of (while_loop (env :: envs) s))) =
    [Pressed b]
  /\ actions_of (Button b) (dispatched (log_of (loop_body env s))) = [Pressed b].
Proof.
  intros Hl He Hall.
  rewrite while_loop_log, run_button_edges, loop_body_actions_of, fires_button.
  cbn [map edges]. rewrite Hl, He. cbn [neqb xorb app].
  rewrite edges_held; [split; reflexivity|].
  apply Forall_map. exact Hall.
Qed.

Lemma held_key_is_pressed_once_witness :
  actions_of (Button EncSW)
    (dispatched (log_of (while_loop [all_low; all_low; all_low] initial_locals))) =
    [Pressed EncSW].
Proof.
  apply (held_key_is_pressed_once EncSW all_low [all_low; all_low] initial_locals).
  - reflexivity.
  - reflexivity.
  - repeat constructor.
Defined.




Lemma loop_log_app envs1 envs2 s :
  loop_log (envs1 ++ envs2) s =
    loop_log envs1 s ++ loop_log envs2 (loop_vars envs1 s).
Proof.
  revert s. induction envs1 as [|env rest IH]; intros s; [reflexivity|].
  cbn [app loop_log]. rewrite IH, <- app_assoc. reflexivity.
Qed.

(** X14: the loop remembers one sample and nothing else: what a run does
    after an iteration depends on the earlier iterations and on the starting
    variables only through the levels sampled in that iteration.  The log of
    a run splits into the log up to and including an iteration and the log
    of the remaining iterations started from the levels of that iteration. *)
Theorem loop_remembers_one_sample pre env rest s :
  log_of (while_loop (pre ++ env :: rest) s) =
    log_of (while_loop (pre ++ [env]) s) ++ log_of (while_loop rest (sampled env))
  /\ vars_of (while_loop (pre ++ env :: rest) s) =
       vars_of (while_loop (env :: rest) initial_locals).
Proof.
  rewrite !while_loop_log, !while_loop_vars. split.
  - change (pre ++ env :: rest) with (pre ++ [env] ++ rest).
    rewrite app_assoc, loop_log_app, loop_vars_snoc. reflexivity.
  - unfold loop_vars. rewrite fold_left_app. reflexivity.
Qed.
